(** * documentation-bleno: the record flattener of [lib/parse.js]

    [parseJSDoc] hands a comment to the tag grammar parser (doctrine),
    rejects it when no tag is titled [bleno], and otherwise walks the tags
    once, mutating the parser's result object through the [flatteners]
    table.

    JavaScript objects are finite maps from keys to values, so that a key
    can be absent; a function that may raise returns an [outcome]; the
    property read [flatteners[tag.title]] follows the prototype chain, as
    it does on any object literal. The parser and the markdown renderer
    are collaborators: they are parameters here, and [parseJSDoc_raising]
    is [parseJSDoc] over a parser that may raise. *)

From Stdlib Require Import ZArith Ascii String List.
From stdpp Require Import gmap strings list fin_maps.

Local Open Scope string_scope.
Local Open Scope Z_scope.
Local Open Scope list_scope.

(** ** Exceptions *)

Inductive exn : Type :=
| TypeError (msg : string).

Inductive outcome (A : Type) : Type :=
| Return (a : A)
| Throw (e : exn).

Arguments Return {A} a.
Arguments Throw {A} e.

#[global] Instance outcome_ret : MRet outcome := fun A a => Return a.

#[global] Instance outcome_bind : MBind outcome := fun A B k m =>
  match m with
  | Return a => k a
  | Throw e => Throw e
  end.

(** [Array.prototype.forEach] with a callback that mutates an accumulator:
    the elements are visited in order, a raised exception ends the walk. *)
Fixpoint forEach {A S : Type} (xs : list A) (f : S -> A -> outcome S) (s : S)
  : outcome S :=
  match xs with
  | [] => Return s
  | x :: rest => s' ← f s x; forEach rest f s'
  end.

(** lodash's [_.findIndex]: the index of the first element the predicate
    accepts, [-1] when there is none. *)
Fixpoint findIndexFrom {A : Type} (p : A -> bool) (xs : list A) (i : Z) : Z :=
  match xs with
  | [] => -1
  | x :: rest => if p x then i else findIndexFrom p rest (i + 1)
  end.

Definition findIndex {A : Type} (xs : list A) (p : A -> bool) : Z :=
  findIndexFrom p xs 0.

(** ** The members of the dispatch table and of [Object.prototype] *)

(** The two function literals of the [flatteners] object. *)
Inductive flattener : Type :=
| FlattenBleno
| FlattenProperty.

(** The functions every plain object inherits from [Object.prototype]. *)
Inductive builtin : Type :=
| ObjectConstructor
| HasOwnProperty
| IsPrototypeOf
| PropertyIsEnumerable
| ToLocaleString
| ToString
| ValueOf
| DefineGetter
| DefineSetter
| LookupGetter
| LookupSetter.

(** What [flatteners[key]] can evaluate to, [undefined] apart. *)
Inductive member : Type :=
| OwnFlattener (f : flattener)
| Inherited (b : builtin)
| PrototypeObject.

(** [var flatteners = { 'bleno': ..., 'property': ... }] : its own keys. *)
Definition flatteners : gmap string member :=
  {[ "bleno" := OwnFlattener FlattenBleno;
     "property" := OwnFlattener FlattenProperty ]}.

(** The properties of [Object.prototype], the prototype of every object
    literal: the [__proto__] accessor yields the prototype object itself,
    the other ones are functions. *)
Definition Object_prototype : gmap string member :=
  list_to_map
    [ ("constructor", Inherited ObjectConstructor);
      ("hasOwnProperty", Inherited HasOwnProperty);
      ("isPrototypeOf", Inherited IsPrototypeOf);
      ("propertyIsEnumerable", Inherited PropertyIsEnumerable);
      ("toLocaleString", Inherited ToLocaleString);
      ("toString", Inherited ToString);
      ("valueOf", Inherited ValueOf);
      ("__defineGetter__", Inherited DefineGetter);
      ("__defineSetter__", Inherited DefineSetter);
      ("__lookupGetter__", Inherited LookupGetter);
      ("__lookupSetter__", Inherited LookupSetter);
      ("__proto__", PrototypeObject) ].

(** Property read [flatteners[key]]: own keys first, then the prototype;
    [None] is [undefined]. Every member is an object, hence truthy. *)
Definition flatteners_get (key : string) : option member :=
  match flatteners !! key with
  | Some m => Some m
  | None => Object_prototype !! key
  end.

(** ** The alphabet of tag titles

    The grammar parser scans the title of a tag as the run of ASCII letters
    and digits that follows the [@] sign. *)
Definition isASCIIAlphanumeric (c : ascii) : bool :=
  let n := Z.of_N (N_of_ascii c) in
  ((97 <=? n) && (n <=? 122)) || ((65 <=? n) && (n <=? 90))
  || ((48 <=? n) && (n <=? 57)).

Definition scanned (s : string) : bool :=
  forallb isASCIIAlphanumeric (list_ascii_of_string s).

(** The keys a record returned by [parseJSDoc] can hold. *)
Definition record_keys : gset string :=
  {[ "description"; "tags"; "loc"; "context"; "errors"; "name"; "properties" ]}.

Section Flattener.

(** Opaque to the flattener: the caller's location and code context, the
    parser's type expressions and the markdown renderer's output. *)
Context {Loc CodeContext TypeExpression Markdown : Type}.

(** [require('./parse_markdown')]: the markdown sub-step, a collaborator. *)
Variable parseMarkdown : string -> Markdown.

(** A tag token as the grammar parser yields it; [None] is [null] or
    [undefined]. *)
Record Tag : Type := mkTag {
  title : string;
  name : option string;
  type : option TypeExpression;
  description : option string;
  lineNumber : Z;
  errors : option (list string)
}.

(** The values the flattener stores in objects; an object is a finite map
    from its keys to values, [VNull] stands for [null] and [undefined]. *)
#[warnings="-register-all"]
Inductive value : Type :=
| VNull
| VNumber (n : Z)
| VString (s : string)
| VMarkdown (m : Markdown)
| VType (t : TypeExpression)
| VLoc (l : Loc)
| VContext (c : CodeContext)
| VTags (ts : list Tag)
| VArray (items : list (gmap string value)).


(** What the grammar parser returns for a comment: the leading free text
    and the tags, in source order. *)
Record Parsed : Type := mkParsed {
  parsed_description : string;
  parsed_tags : list Tag
}.

(** [doctrine.parse(comment, {unwrap, sloppy, recoverable, lineNumbers})]:
    the tag grammar parser, a collaborator. *)
Variable doctrine_parse : string -> Parsed.

(** JavaScript's ToBoolean on the values above. *)
Definition truthy (v : value) : bool :=
  match v with
  | VNull => false
  | VNumber n => negb (Z.eqb n 0)
  | VString s => negb (String.eqb s "")
  | _ => true
  end.

(** A token field read as a value: an absent one reads as [VNull]. *)
Definition field {A : Type} (inj : A -> value) (o : option A) : value :=
  match o with
  | Some a => inj a
  | None => VNull
  end.

(** Property read [o[key]] on a record: an absent key reads as [VNull]. *)
Definition get (o : gmap string value) (key : string) : value :=
  match o !! key with
  | Some v => v
  | None => VNull
  end.

(** [o[key].push(item)]: appends in place when [o[key]] is an array and
    raises a TypeError when it is anything else. *)
Definition push (key : string) (item : gmap string value)
    (o : gmap string value) : outcome (gmap string value) :=
  match o !! key with
  | Some (VArray items) => Return (<[key := VArray (items ++ [item])]> o)
  | _ => Throw (TypeError (key +:+ ".push is not a function"))
  end.

(** [flatteners.bleno]: [result.name = tag.description]. *)
Definition flatten_bleno (result : gmap string value) (tag : Tag)
  : outcome (gmap string value) :=
  Return (<["name" := field VString (description tag)]> result).

(** The object [flatteners.property] builds for a tag. *)
Definition property_of (tag : Tag) : gmap string value :=
  let property : gmap string value :=
    {[ "name" := field VString (name tag);
       "lineNumber" := VNumber (lineNumber tag) ]} in
  let property :=
    match description tag with
    | Some d =>
        if truthy (VString d)
        then <["description" := VMarkdown (parseMarkdown d)]> property
        else property
    | None => property
    end in
  match type tag with
  | Some t => <["type" := VType t]> property
  | None => property
  end.

(** [flatteners.property]. *)
Definition flatten_property (result : gmap string value) (tag : Tag)
  : outcome (gmap string value) :=
  let result :=
    if negb (truthy (get result "properties"))
    then <["properties" := VArray []]> result
    else result in
  push "properties" (property_of tag) result.

(** Calling an inherited function as [flatteners[title](result, tag, title)],
    with [this] bound to [flatteners]: [__defineGetter__] and
    [__defineSetter__] reject their second argument, which is no function;
    the other ones return without touching [result]. *)
Definition call_builtin (b : builtin) (result : gmap string value)
  : outcome (gmap string value) :=
  match b with
  | DefineGetter => Throw (TypeError "Object.prototype.__defineGetter__: Expecting function")
  | DefineSetter => Throw (TypeError "Object.prototype.__defineSetter__: Expecting function")
  | _ => Return result
  end.

(** The call [flatteners[tag.title](result, tag, tag.title)]. *)
Definition call (m : member) (result : gmap string value) (tag : Tag)
  : outcome (gmap string value) :=
  match m with
  | OwnFlattener FlattenBleno => flatten_bleno result tag
  | OwnFlattener FlattenProperty => flatten_property result tag
  | Inherited b => call_builtin b result
  | PrototypeObject => Throw (TypeError "flatteners[tag.title] is not a function")
  end.

(** The two shapes of an entry of [result.errors]. *)
Definition parser_error (msg : string) : gmap string value :=
  {[ "message" := VString msg ]}.

Definition unknown_tag_error (tag : Tag) : gmap string value :=
  {[ "message" := VString ("unknown tag @" +:+ title tag);
     "commentLineNumber" := VNumber (lineNumber tag) ]}.

(** The callback of [result.tags.forEach]. *)
Definition visit (result : gmap string value) (tag : Tag)
  : outcome (gmap string value) :=
  match errors tag with
  | Some msgs =>
      forEach msgs (fun r msg => push "errors" (parser_error msg) r) result
  | None =>
      match flatteners_get (title tag) with
      | Some m => call m result tag
      | None => push "errors" (unknown_tag_error tag) result
      end
  end.

(** [parseJSDoc(comment, loc, context)]: [Return None] is the [null] of a
    comment without a [bleno] tag. *)
Definition parseJSDoc (comment : string) (loc : Loc) (context : CodeContext)
  : outcome (option (gmap string value)) :=
  let parsed := doctrine_parse comment in
  let result : gmap string value :=
    {[ "description" := VString (parsed_description parsed);
       "tags" := VTags (parsed_tags parsed) ]} in
  if Z.eqb (findIndex (parsed_tags parsed)
                      (fun item => String.eqb (title item) "bleno")) (-1)
  then Return None
  else
    let result := <["loc" := VLoc loc]> result in
    let result := <["context" := VContext context]> result in
    let result := <["errors" := VArray []]> result in
    let result :=
      if truthy (get result "description")
      then <["description" := VMarkdown (parseMarkdown (parsed_description parsed))]> result
      else result in
    result ← forEach (parsed_tags parsed) visit result;
    Return (Some result).

(** ** What a walk over the tags leaves in the record

    Three list functions summarise the walk: the entries a tag adds to
    [errors], the [properties] array and the [name] after a sequence of
    tags. The lemmas below relate them to [visit] and [forEach]. *)

(** The tag is free of parser errors and titled [key]. *)
Definition clean (key : string) (tag : Tag) : bool :=
  match errors tag with
  | Some _ => false
  | None => String.eqb (title tag) key
  end.

(** The tag makes the call [flatteners[tag.title](...)] raise. *)
Definition raises (tag : Tag) : bool :=
  match errors tag with
  | Some _ => false
  | None =>
      match flatteners_get (title tag) with
      | Some (Inherited DefineGetter) | Some (Inherited DefineSetter)
      | Some PrototypeObject => true
      | _ => false
      end
  end.

(** The entries a tag adds to [result.errors]. *)
Definition reported (tag : Tag) : list (gmap string value) :=
  match errors tag with
  | Some msgs => parser_error <$> msgs
  | None =>
      match flatteners_get (title tag) with
      | Some _ => []
      | None => [unknown_tag_error tag]
      end
  end.

(** [result.properties] after the tags, from [p] before them. *)
Definition properties_after (tags : list Tag)
    (p : option (list (gmap string value))) : option (list (gmap string value)) :=
  fold_left
    (fun p tag =>
       if clean "property" tag then Some (default [] p ++ [property_of tag]) else p)
    tags p.

(** [result.name] after the tags, from [n] before them. *)
Definition name_after (tags : list Tag) (n : option value) : option value :=
  fold_left
    (fun n tag =>
       if clean "bleno" tag then Some (field VString (description tag)) else n)
    tags n.

(** The keys the walk writes are [name], [properties] and [errors];
    [keeps r r'] says that [r'] agrees with [r] on every other key. *)
Definition keeps (r r' : gmap string value) : Prop :=
  ∀ k : string, k ≠ "name" → k ≠ "properties" → k ≠ "errors" → r' !! k = r !! k.

(** What the three keys hold in [r]. *)
Definition holds (r : gmap string value) (n : option value)
    (p : option (list (gmap string value))) (es : list (gmap string value)) : Prop :=
  r !! "name" = n ∧ r !! "properties" = VArray <$> p ∧ r !! "errors" = Some (VArray es).

(** The tag is titled [bleno], with or without parser errors: the test of
    the marker scan. *)
Definition is_marker (tag : Tag) : bool := String.eqb (title tag) "bleno".

(** The leading free text as the record keeps it. *)
Definition rendered (d : string) : value :=
  if String.eqb d "" then VString d else VMarkdown (parseMarkdown d).

(** ** The other flatteners of the file

    The table above names two flatteners; the file keeps the helpers the
    upstream table was built from. *)

(** [todo]: does nothing. *)
Definition todo (result : gmap string value) : gmap string value := result.

(** [flattenKindShorthand]: [kind] is the key; [name] and [type] are
    copied when the tag has them. *)
Definition flattenKindShorthand (result : gmap string value) (tag : Tag)
    (key : string) : gmap string value :=
  let result := <["kind" := VString key]> result in
  let result :=
    if truthy (field VString (name tag))
    then <["name" := field VString (name tag)]> result
    else result in
  match type tag with
  | Some t => <["type" := VType t]> result
  | None => result
  end.

(** [synonym(key)]: the flattener that calls
    [flatteners[key](result, tag, key)]; calling [undefined] raises. *)
Definition synonym (key : string) (result : gmap string value) (tag : Tag)
  : outcome (gmap string value) :=
  match flatteners_get key with
  | Some m => call m result tag
  | None => Throw (TypeError "flatteners[key] is not a function")
  end.

End Flattener.

Arguments Tag : clear implicits.
Arguments Parsed : clear implicits.
Arguments value : clear implicits.

Arguments mkTag {TypeExpression}.
Arguments mkParsed {TypeExpression}.

(** [parseJSDoc] over a parser that may itself raise: the call
    [doctrine.parse(comment, ...)] stands unguarded on the first line of
    the function, so a fault of the parser is a fault of [parseJSDoc], and
    the rest of the function runs on what the parser returned. *)
Definition parseJSDoc_raising {Loc CodeContext TypeExpression Markdown : Type}
    (parseMarkdown : string → Markdown)
    (parse : string → outcome (Parsed TypeExpression))
    (comment : string) (loc : Loc) (context : CodeContext)
  : outcome (option (gmap string (value Loc CodeContext TypeExpression Markdown))) :=
  parsed ← parse comment;
  parseJSDoc parseMarkdown (fun _ => parsed) comment loc context.

(** ** Sample inputs

    A parser stub that yields a given result, a toy markdown renderer, and
    the tags of a few comments. Locations, contexts and type expressions
    are strings here. *)

Definition yielding (d : string) (tags : list (Tag string)) : string → Parsed string :=
  fun _ => mkParsed d tags.

Definition toy_markdown (s : string) : list string := [s].

Abbreviation sample_value := (value string string string (list string)).

Definition marker : Tag string :=
  mkTag "bleno" None None (Some "getTxStatus") 0 None.

Definition second_marker : Tag string :=
  mkTag "bleno" None None (Some "getTxReceipt") 3 None.

Definition flagged_marker : Tag string :=
  mkTag "bleno" None None (Some "x") 0 (Some ["Missing or invalid tag name"]).

Definition request : Tag string :=
  mkTag "property" (Some "Request") (Some "Hash") (Some "Hex prefixed tx hash") 1 None.

Definition access : Tag string :=
  mkTag "property" (Some "Access") (Some "Public") None 2 None.

Definition flagged_property : Tag string :=
  mkTag "property" None None None 1
    (Some ["Missing or invalid tag type"; "Missing or invalid tag name"]).

Definition unknown : Tag string :=
  mkTag "unknown" None None (Some "y") 1 None.

Definition constructor_tag : Tag string :=
  mkTag "constructor" None None None 1 None.

Definition proto_tag : Tag string :=
  mkTag "__proto__" None None None 1 None.

(** A record as the walk finds it: [errors] initialised, nothing else. *)
Definition fresh_record : gmap string sample_value :=
  {[ "errors" := VArray [] ]}.

(** The record of the comment [@bleno getTxStatus], [@property {Hash}
    Request Hex prefixed tx hash]. *)
Definition getTxStatus_record : gmap string sample_value :=
  {[ "description" := VString "";
     "tags" := VTags [marker; request];
     "loc" := VLoc "handlers.js:12";
     "context" := VContext "onGetTxStatus";
     "errors" := VArray [];
     "name" := VString "getTxStatus";
     "properties" :=
       VArray [ {[ "name" := VString "Request";
                   "lineNumber" := VNumber 1;
                   "description" := VMarkdown ["Hex prefixed tx hash"];
                   "type" := VType "Hash" ]} ] ]}.

(** The record of [@bleno getTxStatus] followed by a [@property] tag that
    the parser flagged twice. *)
Definition flagged_property_record : gmap string sample_value :=
  {[ "description" := VString "";
     "tags" := VTags [marker; flagged_property];
     "loc" := VLoc "handlers.js:12";
     "context" := VContext "onGetTxStatus";
     "errors" :=
       VArray [ {[ "message" := VString "Missing or invalid tag type" ]};
                {[ "message" := VString "Missing or invalid tag name" ]} ];
     "name" := VString "getTxStatus" ]}.

(** The record of a comment whose one [bleno] tag is flagged. *)
Definition flagged_marker_record : gmap string sample_value :=
  {[ "description" := VString "";
     "tags" := VTags [flagged_marker];
     "loc" := VLoc "handlers.js:12";
     "context" := VContext "onGetTxStatus";
     "errors" := VArray [ {[ "message" := VString "Missing or invalid tag name" ]} ] ]}.

(** The record of [@bleno getTxStatus], [@constructor]. *)
Definition constructor_record : gmap string sample_value :=
  {[ "description" := VString "";
     "tags" := VTags [marker; constructor_tag];
     "loc" := VLoc "handlers.js:12";
     "context" := VContext "onGetTxStatus";
     "errors" := VArray [];
     "name" := VString "getTxStatus" ]}.

(** The record of [@bleno getTxStatus] alone, without leading text. *)
Definition lone_marker_record : gmap string sample_value :=
  {[ "description" := VString "";
     "tags" := VTags [marker];
     "loc" := VLoc "handlers.js:12";
     "context" := VContext "onGetTxStatus";
     "errors" := VArray [];
     "name" := VString "getTxStatus" ]}.

(** A [@property] tag before the [bleno] tag, a flagged one and a clean
    one after it. *)
Definition interleaved_record : gmap string sample_value :=
  {[ "description" := VString "";
     "tags" := VTags [request; marker; flagged_property; access];
     "loc" := VLoc "handlers.js:12";
     "context" := VContext "onGetTxStatus";
     "errors" :=
       VArray [ {[ "message" := VString "Missing or invalid tag type" ]};
                {[ "message" := VString "Missing or invalid tag name" ]} ];
     "name" := VString "getTxStatus";
     "properties" :=
       VArray [ {[ "name" := VString "Request";
                   "lineNumber" := VNumber 1;
                   "description" := VMarkdown ["Hex prefixed tx hash"];
                   "type" := VType "Hash" ]};
                {[ "name" := VString "Access";
                   "lineNumber" := VNumber 2;
                   "type" := VType "Public" ]} ] ]}.

(** A parser stub for two comments, the second with two more tags. *)
Definition two_comments (comment : string) : Parsed string :=
  if String.eqb comment "short"
  then mkParsed "" [marker; unknown; request]
  else mkParsed "" [marker; unknown; request; flagged_property; access].

(** The record after the callback has met the tag [@unknown y]. *)
Definition unknown_reported_record : gmap string sample_value :=
  {[ "errors" :=
       VArray [ {[ "message" := VString "unknown tag @unknown";
                   "commentLineNumber" := VNumber 1 ]} ] ]}.

(** A parser stub that raises on the comment [@this {], as the grammar
    parser does when it reads the type of a tag that has none, and yields
    a [bleno] tag, an unknown tag and a flagged tag otherwise. *)
Definition faulty_doctrine (comment : string) : outcome (Parsed string) :=
  if String.eqb comment "@this {"
  then Throw (TypeError "Cannot read property 'type' of undefined")
  else Return (mkParsed "" [marker; unknown; flagged_property]).

(** Rewriting lookups of inserted keys, the keys being string literals. *)
Ltac lookups :=
  repeat first
    [ rewrite lookup_insert_eq
    | rewrite lookup_insert_ne by (discriminate || congruence)
    | rewrite lookup_singleton_eq
    | rewrite lookup_singleton_ne by (discriminate || congruence) ].

(** * Properties of the flattener *)

Section Properties.

Context {Loc CodeContext TypeExpression Markdown : Type}.
Context (parseMarkdown : string → Markdown).
Context (doctrine_parse : string → Parsed TypeExpression).

Local Abbreviation val := (value Loc CodeContext TypeExpression Markdown).
Local Abbreviation obj := (gmap string val).
Local Abbreviation tag := (Tag TypeExpression).

(** ** The dispatch table *)

Lemma flatteners_get_bleno :
  flatteners_get "bleno" = Some (OwnFlattener FlattenBleno).
Proof. reflexivity. Qed.

Lemma flatteners_get_property :
  flatteners_get "property" = Some (OwnFlattener FlattenProperty).
Proof. reflexivity. Qed.

Lemma flatteners_get_other (key : string) :
  key ≠ "bleno" → key ≠ "property" →
  flatteners_get key = Object_prototype !! key.
Proof.
  intros Hb Hp. unfold flatteners_get, flatteners.
  rewrite lookup_insert_ne by congruence.
  rewrite lookup_singleton_ne by congruence. reflexivity.
Qed.

Lemma flatteners_get_own (key : string) (f : flattener) :
  flatteners_get key = Some (OwnFlattener f) →
  (key = "bleno" ∧ f = FlattenBleno) ∨ (key = "property" ∧ f = FlattenProperty).
Proof.
  intros H.
  destruct (decide (key = "bleno")) as [->|Hb].
  { rewrite flatteners_get_bleno in H. left. split; congruence. }
  destruct (decide (key = "property")) as [->|Hp].
  { rewrite flatteners_get_property in H. right. split; congruence. }
  rewrite flatteners_get_other in H by done.
  apply elem_of_list_to_map_2 in H.
  repeat (apply elem_of_cons in H as [H|H]; [discriminate H|]).
  by apply elem_of_nil in H.
Qed.

(** A scanned title never resolves to a member whose call raises: the
    names of those hold an underscore. *)
Lemma scanned_callable (key : string) :
  scanned key = true →
  flatteners_get key ≠ Some (Inherited DefineGetter)
  ∧ flatteners_get key ≠ Some (Inherited DefineSetter)
  ∧ flatteners_get key ≠ Some PrototypeObject.
Proof.
  intros Hs.
  destruct (decide (key = "bleno")) as [->|Hb]; [by rewrite flatteners_get_bleno|].
  destruct (decide (key = "property")) as [->|Hp]; [by rewrite flatteners_get_property|].
  rewrite flatteners_get_other by done.
  assert (Hin : ∀ m, Object_prototype !! key = Some m →
                     m ≠ Inherited DefineGetter ∧ m ≠ Inherited DefineSetter
                     ∧ m ≠ PrototypeObject).
  { intros m H. apply elem_of_list_to_map_2 in H.
    repeat (apply elem_of_cons in H as [H|H];
            [injection H as -> ->; first [done | discriminate Hs]|]).
    by apply elem_of_nil in H. }
  destruct (Object_prototype !! key) as [m|]; [|done].
  destruct (Hin m eq_refl) as (? & ? & ?). repeat split; congruence.
Qed.


(** ** One step of the walk *)

Lemma bind_Return {A B : Type} (a : A) (k : A → outcome B) :
  Return a ≫= k = k a.
Proof. reflexivity. Qed.

Lemma push_array (key : string) (item : obj) (r : obj) (items : list obj) :
  r !! key = Some (VArray items) →
  push key item r = Return (<[key := VArray (items ++ [item])]> r).
Proof. intros H. unfold push. by rewrite H. Qed.

(** The loop over [tag.errors] appends one entry per message and writes
    no other key. *)
Lemma push_parser_errors (msgs : list string) (r : obj) (es : list obj) :
  r !! "errors" = Some (VArray es) →
  forEach msgs (λ r msg, push "errors" (parser_error msg) r) r
  = Return (<["errors" := VArray (es ++ (parser_error <$> msgs))]> r).
Proof.
  revert r es. induction msgs as [|msg msgs IH]; intros r es Hes; simpl.
  - rewrite app_nil_r. by rewrite insert_id.
  - rewrite (push_array _ _ _ es), bind_Return by done.
    rewrite (IH _ (es ++ [parser_error msg])) by apply lookup_insert_eq.
    by rewrite insert_insert_eq, <- app_assoc.
Qed.

Lemma holds_insert_errors (r : obj) n p es es' :
  holds r n p es → holds (<["errors" := VArray es']> r) n p es'.
Proof. intros (Hn & Hp & He). unfold holds. lookups. done. Qed.

Lemma keeps_insert (key : string) (v : val) (r : obj) :
  key = "name" ∨ key = "properties" ∨ key = "errors" → keeps r (<[key := v]> r).
Proof.
  intros Hk k ? ? ?. rewrite lookup_insert_ne; [done|].
  destruct Hk as [->| [->| ->]]; congruence.
Qed.

(** What one call of the [forEach] callback does to the three keys, and
    when it raises. *)
Lemma visit_sound (r : obj) (t : tag) n p es :
  holds r n p es →
  match visit parseMarkdown r t with
  | Return r' =>
      raises t = false
      ∧ holds r'
          (if clean "bleno" t then Some (field VString (description t)) else n)
          (if clean "property" t
           then Some (default [] p ++ [property_of parseMarkdown t]) else p)
          (es ++ reported t)
      ∧ keeps r r'
  | Throw _ => raises t = true
  end.
Proof.
  intros H. pose proof H as (Hn & Hp & He).
  unfold visit, clean, raises, reported.
  destruct (errors t) as [msgs|].
  { rewrite (push_parser_errors _ _ es) by done.
    split; [done|]. split; [by eapply holds_insert_errors|].
    apply keeps_insert; auto. }
  destruct (String.eqb_spec (title t) "bleno") as [Eb|Nb].
  { rewrite Eb, flatteners_get_bleno. simpl. rewrite app_nil_r.
    split; [done|]. split; [|apply keeps_insert; auto].
    unfold holds. lookups. done. }
  destruct (String.eqb_spec (title t) "property") as [Ep|Np].
  { rewrite Ep, flatteners_get_property. simpl. rewrite app_nil_r.
    unfold flatten_property, get. rewrite Hp.
    destruct p as [ps|]; simpl.
    - rewrite (push_array _ _ _ ps) by done.
      split; [done|]. split; [|apply keeps_insert; auto].
      unfold holds. lookups. done.
    - rewrite (push_array _ _ _ []) by apply lookup_insert_eq.
      rewrite insert_insert_eq.
      split; [done|]. split; [|apply keeps_insert; auto].
      unfold holds. lookups. done. }
  destruct (flatteners_get (title t)) as [m|] eqn:Em.
  - destruct m as [f|b|].
    + apply flatteners_get_own in Em as [[? _]|[? _]]; congruence.
    + destruct b; simpl; rewrite ?app_nil_r; try done;
        (split; [done|]; split; [done|]; by intros k _ _ _).
    + done.
  - rewrite (push_array _ _ _ es) by done.
    split; [done|]. split; [by eapply holds_insert_errors|].
    apply keeps_insert; auto.
Qed.

(** ** The whole walk *)

Lemma keeps_refl (r : obj) : keeps r r.
Proof. by intros k _ _ _. Qed.

Lemma keeps_trans (r1 r2 r3 : obj) : keeps r1 r2 → keeps r2 r3 → keeps r1 r3.
Proof. intros H12 H23 k ? ? ?. rewrite H23, H12; done. Qed.

Lemma walk_sound (tags : list tag) (r : obj) n p es :
  holds r n p es →
  match forEach tags (visit parseMarkdown) r with
  | Return r' =>
      Forall (λ t, raises t = false) tags
      ∧ holds r' (name_after tags n) (properties_after parseMarkdown tags p)
          (es ++ flat_map reported tags)
      ∧ keeps r r'
  | Throw _ => Exists (λ t, raises t = true) tags
  end.
Proof.
  revert r n p es. induction tags as [|t tags IH]; intros r n p es H; simpl.
  - rewrite app_nil_r. split; [constructor|]. split; [done|apply keeps_refl].
  - pose proof (visit_sound r t n p es H) as Hv.
    destruct (visit parseMarkdown r t) as [r1|e]; [|by apply Exists_cons_hd].
    rewrite bind_Return. destruct Hv as (Hr & H1 & Hk1).
    specialize (IH r1 _ _ _ H1).
    destruct (forEach tags (visit parseMarkdown) r1) as [r2|e];
      [|by apply Exists_cons_tl].
    destruct IH as (Hrs & H2 & Hk2).
    split; [by constructor|]. split; [|by eapply keeps_trans].
    unfold name_after, properties_after in *. simpl.
    by rewrite app_assoc.
Qed.

Lemma findIndexFrom_spec {A : Type} (f : A → bool) (xs : list A) (i : Z) :
  0 ≤ i →
  (findIndexFrom f xs i = -1 ↔ Forall (λ x, f x = false) xs)
  ∧ (findIndexFrom f xs i ≠ -1 → Exists (λ x, f x = true) xs).
Proof.
  revert i. induction xs as [|x xs IH]; intros i Hi; simpl.
  - split; [split; [constructor|done]|done].
  - destruct (f x) eqn:Hx.
    + split; [split; [lia|]|by constructor].
      intros H. apply Forall_cons in H as [H _]. congruence.
    + destruct (IH (i + 1) ltac:(lia)) as [IH1 IH2].
      split; [|by intros; apply Exists_cons_tl; auto].
      rewrite IH1. split; [by constructor|].
      by intros H; apply Forall_cons in H as [_ H].
Qed.

(** ** [parseJSDoc] as a whole *)

Lemma parseJSDoc_sound (comment : string) (loc : Loc) (context : CodeContext) :
  let tags := parsed_tags (doctrine_parse comment) in
  let d := parsed_description (doctrine_parse comment) in
  match parseJSDoc parseMarkdown doctrine_parse comment loc context with
  | Return None => Forall (λ t, is_marker t = false) tags
  | Return (Some r) =>
      Exists (λ t, is_marker t = true) tags
      ∧ Forall (λ t, raises t = false) tags
      ∧ holds r (name_after tags None) (properties_after parseMarkdown tags None)
          (flat_map reported tags)
      ∧ r !! "loc" = Some (VLoc loc)
      ∧ r !! "context" = Some (VContext context)
      ∧ r !! "tags" = Some (VTags tags)
      ∧ r !! "description" = Some (rendered parseMarkdown d)
      ∧ dom r ⊆ record_keys
  | Throw _ =>
      Exists (λ t, is_marker t = true) tags ∧ Exists (λ t, raises t = true) tags
  end.
Proof.
  intros tags d. unfold parseJSDoc. fold tags. fold d.
  destruct (findIndexFrom_spec (λ item : tag, String.eqb (title item) "bleno")
              tags 0 ltac:(lia)) as [Hnone Hsome].
  fold (findIndex tags (λ item : tag, String.eqb (title item) "bleno")) in *.
  destruct (Z.eqb_spec (findIndex tags (λ item : tag, String.eqb (title item) "bleno"))
              (-1)) as [E|E].
  { by apply Hnone. }
  specialize (Hsome E).
  set (r0 := if truthy (get _ "description") then _ else _).
  assert (H0 : holds r0 None None []).
  { subst r0. unfold holds. destruct (truthy _); lookups; done. }
  assert (Hfix : r0 !! "loc" = Some (VLoc loc)
                 ∧ r0 !! "context" = Some (VContext context)
                 ∧ r0 !! "tags" = Some (VTags tags)
                 ∧ r0 !! "description" = Some (rendered parseMarkdown d)
                 ∧ dom r0 ⊆ record_keys).
  { subst r0. unfold get, rendered. lookups. simpl.
    clear Hnone Hsome E H0.
    destruct (String.eqb d ""); simpl; lookups;
      (repeat split; [done..|]);
      rewrite !dom_insert_L, dom_singleton_L; unfold record_keys;
      apply elem_of_subseteq; intros k; rewrite !elem_of_union, !elem_of_singleton;
      tauto. }
  pose proof (walk_sound tags r0 None None [] H0) as Hw.
  destruct (forEach tags (visit parseMarkdown) r0) as [r|e]; simpl; [|done].
  destruct Hw as (Hr & Hh & Hk). destruct Hfix as (Hl & Hc & Ht & Hd & Hdom).
  repeat split; try done.
  - apply Hh.
  - apply Hh.
  - apply Hh.
  - rewrite Hk; done.
  - rewrite Hk; done.
  - rewrite Hk; done.
  - rewrite Hk; done.
  - intros k Hk'. apply elem_of_dom in Hk'.
    destruct (decide (k = "name")) as [->|?]; [by vm_compute|].
    destruct (decide (k = "properties")) as [->|?]; [by vm_compute|].
    destruct (decide (k = "errors")) as [->|?]; [by vm_compute|].
    apply Hdom. apply elem_of_dom. by rewrite <- Hk.
Qed.

(** ** The summaries in closed form *)

Lemma properties_after_filter (tags : list tag) (p : option (list obj)) :
  properties_after parseMarkdown tags p
  = match List.filter (clean "property") tags with
    | [] => p
    | ts => Some (default [] p ++ (property_of parseMarkdown <$> ts))
    end.
Proof.
  revert p. induction tags as [|t tags IH]; intros p; [done|].
  unfold properties_after in *. simpl.
  destruct (clean "property" t); [|apply IH].
  rewrite IH. simpl.
  destruct (List.filter (clean "property") tags) as [|t' ts]; simpl.
  - done.
  - by rewrite <- app_assoc.
Qed.

Lemma name_after_last (tags : list tag) (n : option val) :
  name_after tags n
  = match last (List.filter (clean "bleno") tags) with
    | Some t => Some (field VString (description t))
    | None => n
    end.
Proof.
  revert n. induction tags as [|t tags IH]; intros n; [done|].
  unfold name_after in *. simpl.
  destruct (clean "bleno" t); [|apply IH].
  rewrite IH. rewrite last_cons.
  by destruct (last (List.filter (clean "bleno") tags)).
Qed.

Lemma filter_none {A : Type} (f : A → bool) (xs : list A) :
  List.filter f xs = [] ↔ Forall (λ x, f x = false) xs.
Proof.
  induction xs as [|x xs IH]; simpl; [by split; [constructor|]|].
  destruct (f x) eqn:Hx.
  - split; [done|]. intros H. apply Forall_cons in H as [H _]. congruence.
  - rewrite IH. split; [by constructor|]. by intros H; apply Forall_cons in H as [_ H].
Qed.

Lemma clean_marker (t : tag) : clean "bleno" t = true → is_marker t = true.
Proof. unfold clean, is_marker. by destruct (errors t). Qed.

Lemma filter_clean_marker (tags : list tag) :
  List.filter (clean "bleno") tags
  = List.filter (clean "bleno") (List.filter is_marker tags).
Proof.
  induction tags as [|t tags IH]; [done|]. simpl.
  destruct (is_marker t) eqn:Em; simpl.
  - destruct (clean "bleno" t); by rewrite IH.
  - destruct (clean "bleno" t) eqn:Ec; [|done].
    apply clean_marker in Ec. congruence.
Qed.

Lemma scanned_no_raise (tags : list tag) :
  Forall (λ t, scanned (title t) = true) tags →
  Forall (λ t, raises t = false) tags.
Proof.
  intros H. eapply Forall_impl; [exact H|]. clear H. intros t Hs. unfold raises.
  destruct (errors t); [done|].
  destruct (scanned_callable _ Hs) as (H1 & H2 & H3).
  destruct (flatteners_get (title t)) as [[f|b|]|]; try done.
  destruct b; congruence.
Qed.

(** A comment with a marker tag and no raising tag yields a record. *)
Lemma parseJSDoc_record (comment : string) (loc : Loc) (context : CodeContext) :
  let tags := parsed_tags (doctrine_parse comment) in
  Exists (λ t, is_marker t = true) tags →
  Forall (λ t, raises t = false) tags →
  ∃ r, parseJSDoc parseMarkdown doctrine_parse comment loc context = Return (Some r)
       ∧ holds r (name_after tags None) (properties_after parseMarkdown tags None)
           (flat_map reported tags).
Proof.
  intros tags Hm Hr.
  pose proof (parseJSDoc_sound comment loc context) as H. simpl in H. fold tags in H.
  destruct (parseJSDoc parseMarkdown doctrine_parse comment loc context) as [[r|]|e].
  - exists r. split; [done|]. apply H.
  - exfalso. apply Exists_exists in Hm as (t & Hin & Ht).
    rewrite Forall_forall in H. specialize (H t Hin). congruence.
  - exfalso. destruct H as [_ H]. apply Exists_exists in H as (t & Hin & Ht).
    rewrite Forall_forall in Hr. specialize (Hr t Hin). congruence.
Qed.

Lemma filter_all {A : Type} (f : A → bool) (xs : list A) :
  Forall (λ x, f x = true) xs → List.filter f xs = xs.
Proof.
  induction 1 as [|x xs Hx _ IH]; simpl; [done|]. by rewrite Hx, IH.
Qed.

Lemma property_of_lookup (t : tag) :
  let p : obj := property_of parseMarkdown t in
  p !! "name" = Some (field VString (name t))
  ∧ p !! "lineNumber" = Some (VNumber (lineNumber t))
  ∧ p !! "description"
    = match description t with
      | Some d =>
          if String.eqb d "" then None else Some (VMarkdown (parseMarkdown d) : val)
      | None => None
      end
  ∧ p !! "type" = VType <$> type t.
Proof.
  unfold property_of.
  destruct (type t) as [ty|], (description t) as [d|]; simpl;
    try destruct (String.eqb d ""); simpl; lookups; done.
Qed.

Lemma filter_singleton {A : Type} (f : A → bool) (xs : list A) (y : A) :
  List.filter f xs = [y] → f y = true ∧ Exists (λ x, f x = true) xs.
Proof.
  intros H.
  assert (Hin : In y (List.filter f xs)) by (rewrite H; by left).
  apply filter_In in Hin as [Hin Hy]. split; [done|].
  apply Exists_exists. exists y. split; [|done]. by apply list_elem_of_In.
Qed.

Lemma reported_clean_marker (t : tag) : clean "bleno" t = true → reported t = ([] : list obj).
Proof.
  unfold clean, reported. destruct (errors t); [done|].
  intros E. apply String.eqb_eq in E. by rewrite E, flatteners_get_bleno.
Qed.

Lemma reported_skip_markers (tags : list tag) :
  (flat_map reported tags : list obj)
  = flat_map reported (List.filter (λ t, negb (clean "bleno" t)) tags).
Proof.
  induction tags as [|t tags IH]; [done|]. simpl.
  destruct (clean "bleno" t) eqn:E; simpl.
  - by rewrite (reported_clean_marker t E).
  - by rewrite IH.
Qed.

Lemma visit_clean_marker (r : obj) (t : tag) :
  clean "bleno" t = true →
  visit parseMarkdown r t = Return (<["name" := field VString (description t)]> r).
Proof.
  unfold clean, visit. destruct (errors t); [done|].
  intros E. apply String.eqb_eq in E. by rewrite E, flatteners_get_bleno.
Qed.

(** An error-free tag whose title is neither an own key of the table nor
    a property of [Object.prototype] is reported, once, with its line. *)
Lemma unknown_title_is_reported (r : obj) (t : tag) (es : list obj) :
  errors t = None →
  title t ≠ "bleno" → title t ≠ "property" →
  Object_prototype !! title t = None →
  r !! "errors" = Some (VArray es) →
  visit parseMarkdown r t
  = Return (<["errors" :=
               VArray (es ++ [ {[ "message" := VString ("unknown tag @" +:+ title t);
                                  "commentLineNumber" := VNumber (lineNumber t) ]} ])]> r).
Proof.
  intros He Hb Hp Hproto Hes. unfold visit. rewrite He.
  rewrite flatteners_get_other, Hproto by done.
  exact (push_array "errors" (unknown_tag_error t) r es Hes).
Qed.

(** ** The claims *)

(** C1: a comment none of whose tags is titled [bleno] yields exactly
    [null]: [parseJSDoc] returns, raises nothing, and builds no record,
    whatever the tags hold otherwise. *)
Theorem no_marker_yields_null (comment : string) (loc : Loc) (context : CodeContext) :
  Forall (λ t, title t ≠ "bleno") (parsed_tags (doctrine_parse comment)) →
  parseJSDoc parseMarkdown doctrine_parse comment loc context = Return None.
Proof.
  intros H. unfold parseJSDoc.
  destruct (findIndexFrom_spec (λ item : tag, String.eqb (title item) "bleno")
              (parsed_tags (doctrine_parse comment)) 0 ltac:(lia)) as [[_ Hnone] _].
  unfold findIndex. rewrite Hnone; [done|].
  eapply Forall_impl; [exact H|]. intros t Ht. by apply String.eqb_neq.
Qed.

(** C2: when the parser yields a [bleno] tag followed by N >= 1 [property]
    tags free of parser errors, the record's [properties] array has N
    entries in the order of the tags; the i-th entry copies [name] and
    [lineNumber] from the i-th tag, holds [description] (rendered) exactly
    when the tag has a non-empty description, and [type] exactly when the
    tag has a type. *)
Theorem marker_then_properties (comment : string) (loc : Loc)
    (context : CodeContext) (m : tag) (ps : list tag) :
  parsed_tags (doctrine_parse comment) = m :: ps →
  title m = "bleno" →
  ps ≠ [] →
  Forall (λ t, title t = "property" ∧ errors t = None) ps →
  ∃ (r : obj) (items : list obj),
    parseJSDoc parseMarkdown doctrine_parse comment loc context = Return (Some r)
    ∧ r !! "properties" = Some (VArray items)
    ∧ length items = length ps
    ∧ ∀ (i : nat) (t : tag), ps !! i = Some t →
        ∃ p : obj,
          items !! i = Some p
          ∧ p !! "name" = Some (field VString (name t))
          ∧ p !! "lineNumber" = Some (VNumber (lineNumber t))
          ∧ (is_Some (p !! "description") ↔ ∃ d, description t = Some d ∧ d ≠ "")
          ∧ (∀ d, description t = Some d → d ≠ "" →
               p !! "description" = Some (VMarkdown (parseMarkdown d)))
          ∧ (is_Some (p !! "type") ↔ is_Some (type t))
          ∧ (∀ ty, type t = Some ty → p !! "type" = Some (VType ty)).
Proof.
  intros Htags Hm Hne Hps.
  assert (Hclean : Forall (λ t : tag, clean "property" t = true) ps).
  { eapply Forall_impl; [exact Hps|]. intros t [Ht He].
    unfold clean. by rewrite He, Ht. }
  destruct (parseJSDoc_record comment loc context) as (r & Hr & Hn & Hp & He).
  { rewrite Htags. apply Exists_cons_hd. unfold is_marker. by rewrite Hm. }
  { rewrite Htags. constructor.
    - unfold raises. rewrite Hm, flatteners_get_bleno. by destruct (errors m).
    - eapply Forall_impl; [exact Hps|]. intros t [Ht Het].
      unfold raises. by rewrite Het, Ht, flatteners_get_property. }
  rewrite Htags, properties_after_filter in Hp. simpl in Hp.
  replace (clean "property" m) with false in Hp
    by (unfold clean; rewrite Hm; by destruct (errors m)).
  rewrite (filter_all _ _ Hclean) in Hp.
  destruct ps as [|t0 ps']; [done|]. simpl in Hp.
  exists r, (property_of parseMarkdown <$> t0 :: ps').
  split; [done|]. split; [done|]. split; [by rewrite length_fmap|].
  intros i t Hi. exists (property_of parseMarkdown t).
  split; [by rewrite list_lookup_fmap, Hi|].
  destruct (property_of_lookup t) as (H1 & H2 & H3 & H4).
  split; [done|]. split; [done|].
  rewrite H3, H4. clear H1 H2 H3 H4.
  destruct (description t) as [d|].
  - destruct (String.eqb_spec d "") as [->|Hd].
    + repeat split.
      * by intros [? ?].
      * intros (d' & [= <-] & ?). done.
      * intros d' [= <-] ?. done.
      * intros [? H]. by destruct (type t).
      * intros [ty ->]. by eexists.
      * intros ty ->. done.
    + repeat split.
      * intros _. by exists d.
      * intros _. by eexists.
      * by intros d' [= <-] _.
      * intros [? H]. by destruct (type t).
      * intros [ty ->]. by eexists.
      * intros ty ->. done.
  - repeat split.
    + by intros [? ?].
    + by intros (d' & ? & ?).
    + done.
    + intros [? H]. by destruct (type t).
    + intros [ty ->]. by eexists.
    + intros ty ->. done.
Qed.

(** C3, as the code has it: a tag that carries parser error messages
    appends one entry per message to [errors], in order, each entry
    holding the message alone (no [commentLineNumber]), and the call
    writes no other key of the record. *)
Theorem flagged_tag_reports_messages (r : obj) (t : tag) (msgs : list string)
    (es : list obj) :
  errors t = Some msgs →
  r !! "errors" = Some (VArray es) →
  visit parseMarkdown r t
  = Return (<["errors" :=
               VArray (es ++ ((λ msg, {[ "message" := VString msg ]} : obj) <$> msgs))]> r).
Proof.
  intros Ht He. unfold visit. rewrite Ht.
  exact (push_parser_errors msgs r es He).
Qed.

(** C4, as the code has it: when exactly one tag is titled [bleno], it is
    free of parser errors and no tag is titled [property] (titles being
    scanned ones), the record's [name] is that tag's description and the
    record has no [properties] key. *)
Theorem lone_marker_names_record (comment : string) (loc : Loc)
    (context : CodeContext) (m : tag) :
  let tags := parsed_tags (doctrine_parse comment) in
  List.filter is_marker tags = [m] →
  errors m = None →
  Forall (λ t, title t ≠ "property") tags →
  Forall (λ t, scanned (title t) = true) tags →
  ∃ r : obj,
    parseJSDoc parseMarkdown doctrine_parse comment loc context = Return (Some r)
    ∧ r !! "name" = Some (field VString (description m))
    ∧ r !! "properties" = None.
Proof.
  intros tags Hone Hm Hnp Hs.
  destruct (filter_singleton _ _ _ Hone) as [Hmm Hex].
  destruct (parseJSDoc_record comment loc context Hex (scanned_no_raise _ Hs))
    as (r & Hr & Hn & Hp & _).
  exists r. split; [done|]. fold tags in Hn, Hp. split.
  - rewrite Hn, name_after_last, filter_clean_marker, Hone. simpl.
    unfold clean. unfold is_marker in Hmm. by rewrite Hm, Hmm.
  - rewrite Hp, properties_after_filter.
    replace (List.filter (clean "property") tags) with (@nil tag); [done|].
    symmetry. apply filter_none. eapply Forall_impl; [exact Hnp|].
    intros t Ht. unfold clean. destruct (errors t); [done|].
    by apply String.eqb_neq.
Qed.

(** C6, as the code has it: a returned record is the parser's result
    object with keys added: it holds [tags] as parsed, [loc], [context],
    [errors], and [description] (rendered when the leading text is not
    empty, the empty string otherwise); it has no key beyond these,
    [name] and [properties]; [name] is absent exactly when no error-free
    tag is titled [bleno], [properties] exactly when no error-free tag is
    titled [property]. *)
Theorem record_keys_and_optional_fields (comment : string) (loc : Loc)
    (context : CodeContext) (r : obj) :
  let tags := parsed_tags (doctrine_parse comment) in
  let d := parsed_description (doctrine_parse comment) in
  parseJSDoc parseMarkdown doctrine_parse comment loc context = Return (Some r) →
  dom r ⊆ record_keys
  ∧ r !! "tags" = Some (VTags tags)
  ∧ r !! "loc" = Some (VLoc loc)
  ∧ r !! "context" = Some (VContext context)
  ∧ r !! "errors" = Some (VArray (flat_map reported tags))
  ∧ r !! "description"
    = Some (if String.eqb d "" then VString "" else VMarkdown (parseMarkdown d))
  ∧ (r !! "name" = None ↔ Forall (λ t, clean "bleno" t = false) tags)
  ∧ (r !! "properties" = None ↔ Forall (λ t, clean "property" t = false) tags).
Proof.
  intros tags d Hr.
  pose proof (parseJSDoc_sound comment loc context) as H. simpl in H.
  rewrite Hr in H. fold tags in H. fold d in H.
  destruct H as (_ & _ & (Hn & Hp & He) & Hl & Hc & Ht & Hd & Hdom).
  repeat split; try done.
  - rewrite Hd. unfold rendered. by destruct (String.eqb_spec d "") as [->|].
  - rewrite Hn, name_after_last, <- filter_none.
    by destruct (List.filter (clean "bleno") tags) as [|t ts] using rev_ind;
      [|rewrite last_snoc].
  - rewrite Hn, name_after_last. intros Hf. apply filter_none in Hf. by rewrite Hf.
  - rewrite Hp, properties_after_filter, <- filter_none.
    by destruct (List.filter (clean "property") tags).
  - rewrite Hp, properties_after_filter. intros Hf. apply filter_none in Hf.
    by rewrite Hf.
Qed.

(** C7: every error-free [bleno] tag is flattened by writing its
    description to [name] and nothing else; so, with several of them, the
    record's [name] is the description of the last one, and the [errors]
    array holds only what the other tags report. *)
Theorem last_marker_wins (comment : string) (loc : Loc) (context : CodeContext)
    (pre post : list tag) (m : tag) :
  parsed_tags (doctrine_parse comment) = pre ++ m :: post →
  title m = "bleno" →
  errors m = None →
  Forall (λ t, clean "bleno" t = false) post →
  Forall (λ t, scanned (title t) = true) (pre ++ m :: post) →
  (∀ (t : tag) (r : obj), clean "bleno" t = true →
     visit parseMarkdown r t = Return (<["name" := field VString (description t)]> r))
  ∧ ∃ r : obj,
      parseJSDoc parseMarkdown doctrine_parse comment loc context = Return (Some r)
      ∧ r !! "name" = Some (field VString (description m))
      ∧ r !! "errors"
        = Some (VArray (flat_map reported
                          (List.filter (λ t, negb (clean "bleno" t)) (pre ++ m :: post)))).
Proof.
  intros Htags Hm He Hpost Hs.
  split; [intros t r; apply visit_clean_marker|].
  assert (Hc : clean "bleno" m = true) by (unfold clean; by rewrite He, Hm).
  destruct (parseJSDoc_record comment loc context) as (r & Hr & Hn & _ & Hes).
  { rewrite Htags. apply Exists_app. right. apply Exists_cons_hd.
    by apply clean_marker. }
  { rewrite Htags. by apply scanned_no_raise. }
  exists r. split; [done|]. rewrite Htags in Hn, Hes. split.
  - rewrite Hn, name_after_last, List.filter_app. simpl. rewrite Hc.
    apply filter_none in Hpost. rewrite Hpost. by rewrite last_snoc.
  - by rewrite Hes, reported_skip_markers.
Qed.

(** C10: when the only tag titled [bleno] carries parser errors (titles
    being scanned ones), [parseJSDoc] still returns a record, not [null],
    and the record has no [name] key. *)
Theorem flagged_marker_leaves_no_name (comment : string) (loc : Loc)
    (context : CodeContext) (m : tag) (msgs : list string) :
  let tags := parsed_tags (doctrine_parse comment) in
  List.filter is_marker tags = [m] →
  errors m = Some msgs →
  Forall (λ t, scanned (title t) = true) tags →
  ∃ r : obj,
    parseJSDoc parseMarkdown doctrine_parse comment loc context = Return (Some r)
    ∧ r !! "name" = None.
Proof.
  intros tags Hone Hm Hs.
  destruct (filter_singleton _ _ _ Hone) as [_ Hex].
  destruct (parseJSDoc_record comment loc context Hex (scanned_no_raise _ Hs))
    as (r & Hr & Hn & _).
  exists r. split; [done|].
  fold tags in Hn. rewrite Hn, name_after_last, filter_clean_marker, Hone. simpl.
  unfold clean. by rewrite Hm.
Qed.

(** ** Further properties of the walk *)

Lemma push_frame (key : string) (item : obj) (r r' : obj) :
  push key item r = Return r' → ∀ k, k ≠ key → r' !! k = r !! k.
Proof.
  unfold push. destruct (r !! key) as [v|]; [destruct v|]; try discriminate.
  intros [= <-] k Hk. by rewrite lookup_insert_ne.
Qed.

Lemma push_parser_errors_frame (msgs : list string) (r r' : obj) :
  forEach msgs (λ r msg, push "errors" (parser_error msg) r) r = Return r' →
  ∀ k, k ≠ "errors" → r' !! k = r !! k.
Proof.
  revert r. induction msgs as [|msg msgs IH]; intros r; simpl.
  - by intros [= <-].
  - destruct (push "errors" (parser_error msg) r) as [r1|e] eqn:E; [|done].
    rewrite bind_Return. intros H k Hk.
    rewrite (IH _ H k Hk). by apply (push_frame _ _ _ _ E).
Qed.

(** When the [forEach] callback returns, it has written at most one key of
    the record, and that key is [name], [properties] or [errors]: a tag
    never contributes to two fields, and never touches [loc], [context],
    [tags] or [description]. *)
Theorem visit_writes_one_key (r r' : obj) (t : tag) :
  visit parseMarkdown r t = Return r' →
  ∃ k : string,
    (k = "name" ∨ k = "properties" ∨ k = "errors")
    ∧ ∀ k' : string, k' ≠ k → r' !! k' = r !! k'.
Proof.
  unfold visit. destruct (errors t) as [msgs|].
  { intros H. exists "errors". split; [auto|].
    by apply (push_parser_errors_frame msgs). }
  destruct (flatteners_get (title t)) as [[[]|b|]|]; simpl.
  - intros [= <-]. exists "name". split; [auto|].
    intros k' Hk. by rewrite lookup_insert_ne.
  - unfold flatten_property. intros H. exists "properties". split; [auto|].
    intros k' Hk. rewrite (push_frame _ _ _ _ H k' Hk).
    destruct (negb _); [by rewrite lookup_insert_ne|done].
  - destruct b; simpl; try discriminate; intros [= <-];
      exists "name"; (split; [auto|done]).
  - discriminate.
  - intros H. exists "errors". split; [auto|]. by apply (push_frame _ _ _ _ H).
Qed.

(** An error-free tag titled with the name of a function every object
    inherits (the two that reject their arguments apart) is skipped in
    silence: the callback returns the record as it was, with no [unknown
    tag] entry. *)
Theorem inherited_titles_are_skipped (r : obj) (t : tag) :
  errors t = None →
  In (title t)
    ["constructor"; "hasOwnProperty"; "isPrototypeOf"; "propertyIsEnumerable";
     "toLocaleString"; "toString"; "valueOf"; "__lookupGetter__";
     "__lookupSetter__"] →
  visit parseMarkdown r t = Return r.
Proof.
  intros He Hin. unfold visit. rewrite He. simpl in Hin.
  repeat (destruct Hin as [<-|Hin]; [reflexivity|]). done.
Qed.

(** The [properties] array in general: it holds the objects of the tags
    that are titled [property] and free of parser errors, in tag order,
    wherever they stand (before the [bleno] tag too) and with repeated
    names kept; the key is absent when there is no such tag. *)
Theorem properties_collect_clean_tags (comment : string) (loc : Loc)
    (context : CodeContext) (r : obj) :
  let tags := parsed_tags (doctrine_parse comment) in
  parseJSDoc parseMarkdown doctrine_parse comment loc context = Return (Some r) →
  r !! "properties"
  = match List.filter (clean "property") tags with
    | [] => None
    | ts => Some (VArray (property_of parseMarkdown <$> ts))
    end.
Proof.
  intros tags Hr.
  pose proof (parseJSDoc_sound comment loc context) as H. simpl in H.
  rewrite Hr in H. fold tags in H. destruct H as (_ & _ & (_ & Hp & _) & _).
  rewrite Hp, properties_after_filter.
  by destruct (List.filter (clean "property") tags).
Qed.

(** The [errors] array of a record is empty exactly when every tag is
    either flagged with an empty list of messages or free of parser errors
    with a title that [flatteners[title]] resolves. *)
Theorem errors_empty_iff (comment : string) (loc : Loc) (context : CodeContext)
    (r : obj) :
  let tags := parsed_tags (doctrine_parse comment) in
  parseJSDoc parseMarkdown doctrine_parse comment loc context = Return (Some r) →
  r !! "errors" = Some (VArray [])
  ↔ Forall (λ t, match errors t with
                 | Some msgs => msgs = []
                 | None => is_Some (flatteners_get (title t))
                 end) tags.
Proof.
  intros tags Hr.
  pose proof (parseJSDoc_sound comment loc context) as H. simpl in H.
  rewrite Hr in H. fold tags in H. destruct H as (_ & _ & (_ & _ & He) & _).
  rewrite He. clear.
  assert (Hone : ∀ t : tag,
            (reported t : list obj) = []
            ↔ match errors t with
              | Some msgs => msgs = []
              | None => is_Some (flatteners_get (title t))
              end).
  { intros t. unfold reported. destruct (errors t) as [msgs|].
    - split; [apply fmap_nil_inv|by intros ->].
    - destruct (flatteners_get (title t));
        split; first [done | by eexists | by intros [? ?]]. }
  induction tags as [|t tags IH]; simpl.
  - split; [constructor|done].
  - split.
    + intros [= Happ]. apply app_eq_nil in Happ as [H1 H2]. constructor.
      * by apply Hone.
      * apply IH. by rewrite H2.
    + intros Hall. apply Forall_cons in Hall as [H1 H2].
      apply Hone in H1. rewrite H1. simpl. by apply IH.
Qed.

(** The [name] of a record is never rendered: the key is absent, or it
    holds the raw description ([null] when there is none) of a tag titled
    [bleno] and free of parser errors. *)
Theorem name_is_raw_description (comment : string) (loc : Loc)
    (context : CodeContext) (r : obj) :
  let tags := parsed_tags (doctrine_parse comment) in
  parseJSDoc parseMarkdown doctrine_parse comment loc context = Return (Some r) →
  (r !! "name" = None
   ∨ ∃ t, t ∈ tags ∧ title t = "bleno" ∧ errors t = None
          ∧ r !! "name" = Some (field VString (description t)))
  ∧ ∀ md, r !! "name" ≠ Some (VMarkdown md).
Proof.
  intros tags Hr.
  pose proof (parseJSDoc_sound comment loc context) as H. simpl in H.
  rewrite Hr in H. fold tags in H. destruct H as (_ & _ & (Hn & _) & _).
  rewrite Hn, name_after_last.
  destruct (last (List.filter (clean "bleno") tags)) as [t|] eqn:El.
  - apply last_Some in El as [l' El].
    assert (Hin : In t (List.filter (clean "bleno") tags))
      by (rewrite El; apply in_or_app; right; by left).
    apply filter_In in Hin as [Hin Hc]. unfold clean in Hc.
    destruct (errors t) eqn:He; [done|]. apply String.eqb_eq in Hc.
    split.
    + right. exists t. by rewrite list_elem_of_In.
    + intros md. by destruct (description t).
  - split; [by left|done].
Qed.

Lemma property_of_dom (t : tag) :
  dom (property_of parseMarkdown t : obj)
  ⊆ {[ "name"; "lineNumber"; "description"; "type" ]}.
Proof.
  intros k Hk. apply elem_of_dom in Hk.
  destruct (decide (k = "name")) as [->|?]; [by vm_compute|].
  destruct (decide (k = "lineNumber")) as [->|?]; [by vm_compute|].
  destruct (decide (k = "description")) as [->|?]; [by vm_compute|].
  destruct (decide (k = "type")) as [->|?]; [by vm_compute|].
  exfalso. revert Hk. unfold property_of.
  destruct (type t), (description t) as [d|]; simpl;
    try destruct (String.eqb d ""); simpl;
    rewrite ?lookup_insert_ne, ?lookup_singleton_ne by done; by intros [? ?].
Qed.

(** The [properties] array, when the record has one, is never empty; each
    entry has no key beyond [name], [lineNumber], [description] and
    [type], always holds [name] and a numeric [lineNumber], and holds a
    [description] only as rendered markdown, never as the raw text. *)
Theorem property_entries_shape (comment : string) (loc : Loc)
    (context : CodeContext) (r : obj) (items : list obj) :
  parseJSDoc parseMarkdown doctrine_parse comment loc context = Return (Some r) →
  r !! "properties" = Some (VArray items) →
  items ≠ []
  ∧ Forall (λ p : obj,
      dom p ⊆ {[ "name"; "lineNumber"; "description"; "type" ]}
      ∧ is_Some (p !! "name")
      ∧ (∃ n, p !! "lineNumber" = Some (VNumber n))
      ∧ (∀ v, p !! "description" = Some v → ∃ md, v = VMarkdown md)
      ∧ (∀ v, p !! "type" = Some v → ∃ ty, v = VType ty)) items.
Proof.
  intros Hr Hitems.
  pose proof (parseJSDoc_sound comment loc context) as H. simpl in H.
  rewrite Hr in H. destruct H as (_ & _ & (_ & Hp & _) & _).
  rewrite Hitems, properties_after_filter in Hp.
  destruct (List.filter (clean "property") (parsed_tags (doctrine_parse comment)))
    as [|t ts]; [done|].
  simpl in Hp. injection Hp as ->. split; [done|].
  assert (Hall : ∀ t' : tag,
            dom (property_of parseMarkdown t' : obj)
            ⊆ {[ "name"; "lineNumber"; "description"; "type" ]}
            ∧ is_Some ((property_of parseMarkdown t' : obj) !! "name")
            ∧ (∃ n, (property_of parseMarkdown t' : obj) !! "lineNumber"
                    = Some (VNumber n))
            ∧ (∀ v, (property_of parseMarkdown t' : obj) !! "description" = Some v →
                    ∃ md, v = VMarkdown md)
            ∧ (∀ v, (property_of parseMarkdown t' : obj) !! "type" = Some v →
                    ∃ ty, v = VType ty)).
  { intros t'. destruct (property_of_lookup t') as (H1 & H2 & H3 & H4).
    split; [apply property_of_dom|]. split; [by rewrite H1|].
    split; [by eexists|]. rewrite H3, H4. split.
    - intros v. destruct (description t') as [d|]; [|done].
      destruct (String.eqb d ""); [done|]. intros [= <-]. by eexists.
    - intros v. destruct (type t'); [|done]. intros [= <-]. by eexists. }
  constructor; [apply Hall|].
  clear Hitems.
  induction ts as [|t' ts IH]; simpl; constructor; [apply Hall|apply IH].
Qed.

(** Tags added at the end of a comment only extend the arrays: the
    [errors] of the shorter comment are a prefix of those of the longer
    one, and so are its [properties]; earlier entries are never dropped,
    changed or reordered. *)
Theorem appended_tags_extend_arrays (c1 c2 : string) (l1 l2 : Loc)
    (x1 x2 : CodeContext) (more : list tag) (r1 r2 : obj) :
  parsed_tags (doctrine_parse c2) = parsed_tags (doctrine_parse c1) ++ more →
  parseJSDoc parseMarkdown doctrine_parse c1 l1 x1 = Return (Some r1) →
  parseJSDoc parseMarkdown doctrine_parse c2 l2 x2 = Return (Some r2) →
  (∃ es es' : list obj,
     r1 !! "errors" = Some (VArray es)
     ∧ r2 !! "errors" = Some (VArray (es ++ es')))
  ∧ (∀ ps : list obj,
       r1 !! "properties" = Some (VArray ps) →
       ∃ ps' : list obj, r2 !! "properties" = Some (VArray (ps ++ ps'))).
Proof.
  intros Htags H1 H2.
  pose proof (parseJSDoc_sound c1 l1 x1) as S1. simpl in S1. rewrite H1 in S1.
  pose proof (parseJSDoc_sound c2 l2 x2) as S2. simpl in S2. rewrite H2 in S2.
  destruct S1 as (_ & _ & (_ & Hp1 & He1) & _).
  destruct S2 as (_ & _ & (_ & Hp2 & He2) & _).
  rewrite Htags in Hp2, He2. split.
  - eexists _, _. split; [exact He1|]. by rewrite He2, flat_map_app.
  - intros ps Hps. rewrite Hp2. rewrite Hps in Hp1.
    rewrite properties_after_filter in *. rewrite List.filter_app.
    destruct (List.filter (clean "property") (parsed_tags (doctrine_parse c1)))
      as [|t ts]; [done|].
    simpl in Hp1. injection Hp1 as ->. simpl. rewrite fmap_app. by eexists.
Qed.

(** ** The helpers outside the table *)

(** [flattenKindShorthand] always sets [kind] to the key; it overwrites
    [name] only when the tag has a non-empty name and [type] only when the
    tag has a type, keeping what the record held otherwise; it writes no
    other key. *)
Theorem flattenKindShorthand_fields (r : obj) (t : tag) (key : string) :
  let r' : obj := flattenKindShorthand r t key in
  r' !! "kind" = Some (VString key)
  ∧ r' !! "name"
    = match name t with
      | Some n => if String.eqb n "" then r !! "name" else Some (VString n)
      | None => r !! "name"
      end
  ∧ r' !! "type"
    = match type t with
      | Some ty => Some (VType ty)
      | None => r !! "type"
      end
  ∧ ∀ k : string, k ≠ "kind" → k ≠ "name" → k ≠ "type" → r' !! k = r !! k.
Proof.
  unfold flattenKindShorthand.
  destruct (type t) as [ty|], (name t) as [n|]; simpl;
    try destruct (String.eqb n ""); simpl; lookups;
    (repeat split; [done..|]); intros k ? ? ?;
    rewrite ?lookup_insert_ne by done; done.
Qed.

Lemma flatteners_get_inherited (key : string) (b : builtin) :
  flatteners_get key = Some (Inherited b) →
  call_builtin b (∅ : obj) = Return ∅ →
  In key ["constructor"; "hasOwnProperty"; "isPrototypeOf"; "propertyIsEnumerable";
          "toLocaleString"; "toString"; "valueOf"; "__lookupGetter__";
          "__lookupSetter__"].
Proof.
  intros H Hc.
  destruct (decide (key = "bleno")) as [E|Hb];
    [by rewrite E, flatteners_get_bleno in H|].
  destruct (decide (key = "property")) as [E|Hp];
    [by rewrite E, flatteners_get_property in H|].
  rewrite flatteners_get_other in H by done.
  apply elem_of_list_to_map_2 in H.
  repeat (apply elem_of_cons in H as [H|H];
          [first [ discriminate H
                 | injection H as -> ->; first [discriminate Hc | simpl; tauto] ]|]).
  by apply elem_of_nil in H.
Qed.

(** A flattener made by [synonym(key)] returns only for the two keys of
    the table, where it acts as that flattener, and for the names of the
    inherited functions that accept the call, where it changes nothing;
    for every other key, the upstream titles among them, it raises. *)
Theorem synonym_returns_only_for_table_keys (key : string) (r r' : obj) (t : tag) :
  synonym parseMarkdown key r t = Return r' →
  (key = "bleno" ∧ r' = <["name" := field VString (description t)]> r)
  ∨ (key = "property" ∧ flatten_property parseMarkdown r t = Return r')
  ∨ (In key ["constructor"; "hasOwnProperty"; "isPrototypeOf";
             "propertyIsEnumerable"; "toLocaleString"; "toString"; "valueOf";
             "__lookupGetter__"; "__lookupSetter__"]
     ∧ r' = r).
Proof.
  unfold synonym. destruct (flatteners_get key) as [m|] eqn:Em; [|done].
  destruct m as [f|b|]; simpl; [| |done].
  - apply flatteners_get_own in Em as [[-> ->]|[-> ->]]; simpl.
    + intros [= <-]. by left.
    + intros H. right. by left.
  - intros H. right. right.
    assert (Hr : r' = r) by (destruct b; simpl in H; congruence).
    split; [|done]. apply (flatteners_get_inherited key b Em).
    by destruct b.
Qed.

End Properties.

(** * Faults of the parser *)

Section Faults.

Context {Loc CodeContext TypeExpression Markdown : Type}.
Context (parseMarkdown : string → Markdown).
Context (parse : string → outcome (Parsed TypeExpression)).

Local Abbreviation fobj := (gmap string (value Loc CodeContext TypeExpression Markdown)).

(** C8, as the code has it: a fault of the grammar parser is a fault of
    the call, nothing guards it; once the parser has returned (titles
    being scanned ones), the call raises nothing: it returns [null]
    exactly when no tag is titled [bleno], and otherwise a record whose
    [errors] array holds an entry for every message of every flagged tag
    and an [unknown tag] entry for every error-free tag whose title is
    neither a key of the table nor a name every object inherits. What
    becomes of an inherited name is left open here. *)
Theorem only_collaborators_raise (comment : string) (loc : Loc)
    (context : CodeContext) :
  (∀ e, parse comment = Throw e →
     parseJSDoc_raising parseMarkdown parse comment loc context = Throw e)
  ∧ (∀ parsed, parse comment = Return parsed →
       Forall (λ t, scanned (title t) = true) (parsed_tags parsed) →
       ∃ o : option fobj,
         parseJSDoc_raising parseMarkdown parse comment loc context = Return o
         ∧ (o = None ↔ Forall (λ t, title t ≠ "bleno") (parsed_tags parsed))
         ∧ ∀ r, o = Some r →
             ∃ es : list fobj,
               r !! "errors" = Some (VArray es)
               ∧ (∀ t msgs msg,
                    t ∈ parsed_tags parsed → errors t = Some msgs → msg ∈ msgs →
                    ({[ "message" := VString msg ]} : fobj) ∈ es)
               ∧ (∀ t,
                    t ∈ parsed_tags parsed → errors t = None →
                    title t ≠ "bleno" → title t ≠ "property" →
                    Object_prototype !! title t = None →
                    ({[ "message" := VString ("unknown tag @" +:+ title t);
                        "commentLineNumber" := VNumber (lineNumber t) ]} : fobj)
                    ∈ es)).
Proof.
  split.
  { intros e He. unfold parseJSDoc_raising. by rewrite He. }
  intros parsed Hp Hs. unfold parseJSDoc_raising. rewrite Hp.
  change (Return parsed ≫= _)
    with (parseJSDoc parseMarkdown (λ _ : string, parsed) comment loc context).
  apply scanned_no_raise in Hs.
  pose proof (parseJSDoc_sound parseMarkdown (λ _, parsed) comment loc context) as H.
  simpl in H.
  destruct (parseJSDoc parseMarkdown (λ _ : string, parsed) comment loc context)
    as [[r|]|e].
  - exists (Some r). split; [done|].
    destruct H as (Hex & _ & (_ & _ & He) & _). split.
    { split; [done|]. intros Hno. exfalso.
      apply Exists_exists in Hex as (t & Hin & Ht). rewrite Forall_forall in Hno.
      apply (Hno t Hin). by apply String.eqb_eq. }
    intros r' [= <-]. exists (flat_map reported (parsed_tags parsed)).
    split; [done|]. split.
    + intros t msgs msg Hin Hm Hmsg.
      apply list_elem_of_In, in_flat_map. exists t.
      split; [by apply list_elem_of_In|]. apply list_elem_of_In.
      unfold reported. rewrite Hm.
      by apply (list_elem_of_fmap_2 parser_error).
    + intros t Hin Hn Hb Hpr Hproto.
      apply list_elem_of_In, in_flat_map. exists t.
      split; [by apply list_elem_of_In|].
      unfold reported. rewrite Hn, flatteners_get_other, Hproto by done.
      by left.
  - exists None. split; [done|]. split; [|done]. split; [|done]. intros _.
    eapply Forall_impl; [exact H|]. intros t Ht. by apply String.eqb_neq.
  - exfalso. destruct H as [_ H]. apply Exists_exists in H as (t & Hin & Ht).
    rewrite Forall_forall in Hs. specialize (Hs t Hin). congruence.
Qed.

End Faults.

(** * The claims on sample comments *)

Example getTxStatus_scenario :
  parseJSDoc toy_markdown (yielding "" [marker; request]) "c" "handlers.js:12"
    "onGetTxStatus" = Return (Some getTxStatus_record).
Proof. reflexivity. Qed.

Lemma no_marker_yields_null_witness :
  parseJSDoc toy_markdown (yielding "" [request]) "c" "handlers.js:12"
    "onGetTxStatus" = Return None.
Proof.
  apply (no_marker_yields_null toy_markdown (yielding "" [request])).
  repeat constructor. discriminate.
Defined.

Lemma marker_then_properties_witness :
  ∃ (r : gmap string sample_value) (items : list (gmap string sample_value)),
    parseJSDoc toy_markdown (yielding "" [marker; request; access]) "c"
      "handlers.js:12" "onGetTxStatus" = Return (Some r)
    ∧ r !! "properties" = Some (VArray items)
    ∧ length items = 2%nat.
Proof.
  destruct (marker_then_properties toy_markdown
              (yielding "" [marker; request; access]) "c" "handlers.js:12"
              "onGetTxStatus" marker [request; access] eq_refl eq_refl
              ltac:(discriminate) ltac:(repeat constructor))
    as (r & items & Hr & Hp & Hlen & _).
  exists r, items. repeat split; assumption.
Defined.

(** C3, as the claim states it, fails: the entries of a flagged tag on
    line 1 carry no [commentLineNumber]. *)
Lemma flagged_tag_entries_lack_line :
  parseJSDoc toy_markdown (yielding "" [marker; flagged_property]) "c"
    "handlers.js:12" "onGetTxStatus" = Return (Some flagged_property_record)
  ∧ lineNumber flagged_property = 1
  ∧ ∃ e1 e2 : gmap string sample_value,
      flagged_property_record !! "errors" = Some (VArray [e1; e2])
      ∧ e1 !! "commentLineNumber" = None
      ∧ e2 !! "commentLineNumber" = None.
Proof.
  split; [reflexivity|]. split; [reflexivity|].
  do 2 eexists. split; [reflexivity|]. split; reflexivity.
Qed.

Lemma flagged_tag_reports_messages_witness :
  visit toy_markdown fresh_record flagged_property
  = Return {[ "errors" :=
                VArray [ {[ "message" := VString "Missing or invalid tag type" ]};
                         {[ "message" := VString "Missing or invalid tag name" ]} ] ]}.
Proof.
  rewrite (flagged_tag_reports_messages toy_markdown fresh_record flagged_property
             ["Missing or invalid tag type"; "Missing or invalid tag name"] []
             eq_refl (lookup_singleton_eq _ _)).
  reflexivity.
Defined.

(** C4, as the claim states it, fails: the one [bleno] tag of this comment
    carries a parser error, no tag is titled [property], and the record
    has no [name]. *)
Lemma lone_flagged_marker_has_no_name :
  parseJSDoc toy_markdown (yielding "" [flagged_marker]) "c" "handlers.js:12"
    "onGetTxStatus" = Return (Some flagged_marker_record)
  ∧ description flagged_marker = Some "x"
  ∧ flagged_marker_record !! "name" = None.
Proof. split; [reflexivity|]. split; reflexivity. Qed.

Lemma lone_marker_names_record_witness :
  ∃ r : gmap string sample_value,
    parseJSDoc toy_markdown (yielding "" [marker; unknown]) "c" "handlers.js:12"
      "onGetTxStatus" = Return (Some r)
    ∧ r !! "name" = Some (VString "getTxStatus")
    ∧ r !! "properties" = None.
Proof.
  apply (lone_marker_names_record toy_markdown (yielding "" [marker; unknown])
           "c" "handlers.js:12" "onGetTxStatus" marker eq_refl eq_refl).
  - repeat constructor; discriminate.
  - repeat constructor.
Defined.

(** C5 fails on the code: the error-free tag [@constructor] resolves to
    the function every object inherits, the call changes nothing, and no
    [unknown tag @constructor] entry is appended. *)
Theorem inherited_title_is_not_reported :
  parseJSDoc toy_markdown (yielding "" [marker; constructor_tag]) "c"
    "handlers.js:12" "onGetTxStatus" = Return (Some constructor_record)
  ∧ errors constructor_tag = None
  ∧ flatteners_get (title constructor_tag) = Some (Inherited ObjectConstructor)
  ∧ constructor_record !! "errors" = Some (VArray []).
Proof. repeat split; reflexivity. Qed.

(** C6, as the claim states it, fails: the record keeps the parser's
    [tags] key, and its [description] is the empty string when the comment
    has no leading text. *)
Lemma record_keeps_parser_fields :
  parseJSDoc toy_markdown (yielding "" [marker]) "c" "handlers.js:12"
    "onGetTxStatus" = Return (Some lone_marker_record)
  ∧ lone_marker_record !! "tags" = Some (VTags [marker])
  ∧ lone_marker_record !! "description" = Some (VString "").
Proof. repeat split; reflexivity. Qed.

Lemma record_keys_and_optional_fields_witness :
  dom getTxStatus_record ⊆ record_keys
  ∧ getTxStatus_record !! "description" = Some (VString "")
  ∧ (getTxStatus_record !! "name" = None
     ↔ Forall (λ t, clean "bleno" t = false) [marker; request]).
Proof.
  destruct (record_keys_and_optional_fields toy_markdown
              (yielding "" [marker; request]) "c" "handlers.js:12"
              "onGetTxStatus" getTxStatus_record getTxStatus_scenario)
    as (Hdom & _ & _ & _ & _ & Hd & Hn & _).
  repeat split; try assumption; apply Hn.
Defined.

Lemma last_marker_wins_witness :
  ∃ r : gmap string sample_value,
    parseJSDoc toy_markdown (yielding "" [marker; request; second_marker]) "c"
      "handlers.js:12" "onGetTxStatus" = Return (Some r)
    ∧ r !! "name" = Some (VString "getTxReceipt")
    ∧ r !! "errors" = Some (VArray []).
Proof.
  destruct (last_marker_wins toy_markdown
              (yielding "" [marker; request; second_marker]) "c" "handlers.js:12"
              "onGetTxStatus" [marker; request] [] second_marker
              eq_refl eq_refl eq_refl ltac:(constructor) ltac:(repeat constructor))
    as (_ & r & Hr & Hn & He).
  exists r. repeat split; assumption.
Defined.

Lemma flagged_marker_leaves_no_name_witness :
  ∃ r : gmap string sample_value,
    parseJSDoc toy_markdown (yielding "" [flagged_marker; request]) "c"
      "handlers.js:12" "onGetTxStatus" = Return (Some r)
    ∧ r !! "name" = None.
Proof.
  apply (flagged_marker_leaves_no_name toy_markdown
           (yielding "" [flagged_marker; request]) "c" "handlers.js:12"
           "onGetTxStatus" flagged_marker ["Missing or invalid tag name"]
           eq_refl eq_refl).
  repeat constructor.
Defined.

Lemma unknown_title_is_reported_witness :
  visit toy_markdown fresh_record unknown
  = Return {[ "errors" :=
                VArray [ {[ "message" := VString "unknown tag @unknown";
                            "commentLineNumber" := VNumber 1 ]} ] ]}.
Proof.
  rewrite (unknown_title_is_reported toy_markdown fresh_record unknown []
             eq_refl ltac:(discriminate) ltac:(discriminate)
             ltac:(reflexivity) (lookup_singleton_eq _ _)).
  reflexivity.
Defined.

(** The comment [@bleno x], [@unknown y]: a record with [name], no
    [properties] key, and one entry for the unknown tag. *)
Example unknown_tag_scenario :
  parseJSDoc toy_markdown
    (yielding "" [mkTag "bleno" None None (Some "x") 0 None; unknown]) "c"
    "handlers.js:12" "onGetTxStatus"
  = Return (Some
      {[ "description" := VString "";
         "tags" := VTags [mkTag "bleno" None None (Some "x") 0 None; unknown];
         "loc" := VLoc "handlers.js:12";
         "context" := VContext "onGetTxStatus";
         "errors" :=
           VArray [ {[ "message" := VString "unknown tag @unknown";
                       "commentLineNumber" := VNumber 1 ]} ];
         "name" := VString "x" ]}).
Proof. reflexivity. Qed.

(** The hypothesis on titles is not idle: a title that is no scanned one
    can resolve to the prototype object, and calling it raises. *)
Example proto_title_raises :
  scanned (title proto_tag) = false
  ∧ ∃ e, parseJSDoc toy_markdown (yielding "" [marker; proto_tag]) "c"
           "handlers.js:12" "onGetTxStatus" = Throw e.
Proof. split; [reflexivity|]. eexists. reflexivity. Qed.

(** * Further properties on sample comments *)

Example interleaved_scenario :
  parseJSDoc toy_markdown
    (yielding "" [request; marker; flagged_property; access]) "c"
    "handlers.js:12" "onGetTxStatus" = Return (Some interleaved_record).
Proof. reflexivity. Qed.

Lemma visit_writes_one_key_witness :
  ∃ k : string,
    (k = "name" ∨ k = "properties" ∨ k = "errors")
    ∧ ∀ k' : string, k' ≠ k → unknown_reported_record !! k' = fresh_record !! k'.
Proof.
  exact (visit_writes_one_key toy_markdown fresh_record unknown_reported_record
           unknown eq_refl).
Defined.

Lemma inherited_titles_are_skipped_witness :
  visit toy_markdown fresh_record constructor_tag = Return fresh_record.
Proof.
  apply (inherited_titles_are_skipped toy_markdown fresh_record constructor_tag
           eq_refl).
  simpl. tauto.
Defined.

Lemma properties_collect_clean_tags_witness :
  interleaved_record !! "properties"
  = Some (VArray [property_of toy_markdown request; property_of toy_markdown access]).
Proof.
  exact (properties_collect_clean_tags toy_markdown
           (yielding "" [request; marker; flagged_property; access]) "c"
           "handlers.js:12" "onGetTxStatus" interleaved_record interleaved_scenario).
Defined.

Lemma errors_empty_iff_witness :
  getTxStatus_record !! "errors" = Some (VArray [])
  ↔ Forall (λ t : Tag string,
              match errors t with
              | Some msgs => msgs = []
              | None => is_Some (flatteners_get (title t))
              end) [marker; request].
Proof.
  exact (errors_empty_iff toy_markdown (yielding "" [marker; request]) "c"
           "handlers.js:12" "onGetTxStatus" getTxStatus_record getTxStatus_scenario).
Defined.

Lemma name_is_raw_description_witness :
  interleaved_record !! "name" = None
  ∨ ∃ t : Tag string,
      t ∈ [request; marker; flagged_property; access]
      ∧ title t = "bleno" ∧ errors t = None
      ∧ interleaved_record !! "name" = Some (field VString (description t)).
Proof.
  exact (proj1 (name_is_raw_description toy_markdown
                  (yielding "" [request; marker; flagged_property; access]) "c"
                  "handlers.js:12" "onGetTxStatus" interleaved_record
                  interleaved_scenario)).
Defined.

Lemma property_entries_shape_witness :
  Forall (λ p : gmap string sample_value,
            dom p ⊆ {[ "name"; "lineNumber"; "description"; "type" ]})
    [property_of toy_markdown request; property_of toy_markdown access].
Proof.
  destruct (property_entries_shape toy_markdown
              (yielding "" [request; marker; flagged_property; access]) "c"
              "handlers.js:12" "onGetTxStatus" interleaved_record
              [property_of toy_markdown request; property_of toy_markdown access]
              interleaved_scenario eq_refl) as [_ H].
  eapply Forall_impl; [exact H|]. intros p Hp. apply Hp.
Defined.

Lemma appended_tags_extend_arrays_witness :
  ∃ r1 r2 es es' : _,
    parseJSDoc toy_markdown two_comments "short" "handlers.js:12" "onGetTxStatus"
    = Return (Some r1)
    ∧ parseJSDoc toy_markdown two_comments "long" "handlers.js:40" "onGetTxReceipt"
      = Return (Some r2)
    ∧ r1 !! "errors" = Some (VArray es)
    ∧ r2 !! "errors" = Some (VArray (es ++ es')).
Proof.
  eexists _, _.
  destruct (appended_tags_extend_arrays toy_markdown two_comments "short" "long"
              "handlers.js:12" "handlers.js:40" "onGetTxStatus" "onGetTxReceipt"
              [flagged_property; access] _ _ eq_refl eq_refl eq_refl)
    as [(es & es' & H1 & H2) _].
  exists es, es'. repeat split; assumption.
Defined.

Lemma synonym_returns_only_for_table_keys_witness :
  ("bleno" = "bleno"
   ∧ (<["name" := VString "getTxStatus"]> fresh_record : gmap string sample_value)
     = <["name" := field VString (description marker)]> fresh_record)
  ∨ ("bleno" = "property"
     ∧ flatten_property toy_markdown fresh_record marker
       = Return (<["name" := VString "getTxStatus"]> fresh_record))
  ∨ (In "bleno" ["constructor"; "hasOwnProperty"; "isPrototypeOf";
                 "propertyIsEnumerable"; "toLocaleString"; "toString"; "valueOf";
                 "__lookupGetter__"; "__lookupSetter__"]
     ∧ <["name" := VString "getTxStatus"]> fresh_record = fresh_record).
Proof.
  exact (synonym_returns_only_for_table_keys toy_markdown "bleno" fresh_record
           (<["name" := VString "getTxStatus"]> fresh_record) marker eq_refl).
Defined.

(** C8, as the claim states it, fails: the call raises when the parser
    does, here on the comment [@this {]; and the unrecognized title of the
    error-free tag [@constructor] comes back as no entry at all (the
    defect of C5). *)
Lemma parser_fault_escapes :
  (∃ e, parseJSDoc_raising toy_markdown faulty_doctrine "@this {"
          "handlers.js:12" "onGetTxStatus" = Throw e)
  ∧ parseJSDoc_raising toy_markdown
      (λ c, Return (yielding "" [marker; constructor_tag] c)) "c"
      "handlers.js:12" "onGetTxStatus" = Return (Some constructor_record)
  ∧ errors constructor_tag = None
  ∧ flatteners !! title constructor_tag = None
  ∧ constructor_record !! "errors" = Some (VArray []).
Proof.
  split; [by eexists|]. repeat split; reflexivity.
Qed.

Lemma only_collaborators_raise_witness :
  ∃ (r : gmap string sample_value) (es : list (gmap string sample_value)),
    parseJSDoc_raising toy_markdown faulty_doctrine "@bleno x" "handlers.js:12"
      "onGetTxStatus" = Return (Some r)
    ∧ r !! "errors" = Some (VArray es)
    ∧ ({[ "message" := VString "Missing or invalid tag type" ]}
         : gmap string sample_value) ∈ es
    ∧ ({[ "message" := VString "unknown tag @unknown";
          "commentLineNumber" := VNumber 1 ]} : gmap string sample_value) ∈ es.
Proof.
  destruct (proj2 (only_collaborators_raise toy_markdown faulty_doctrine "@bleno x"
                     "handlers.js:12" "onGetTxStatus")
              (mkParsed "" [marker; unknown; flagged_property]) eq_refl
              ltac:(repeat constructor))
    as (o & Ho & Hnull & Herr).
  destruct o as [r|].
  - destruct (Herr r eq_refl) as (es & Hes & Hflag & Hunk).
    exists r, es. split; [exact Ho|]. split; [exact Hes|]. split.
    + apply (Hflag flagged_property
               ["Missing or invalid tag type"; "Missing or invalid tag name"]
               "Missing or invalid tag type");
        [apply list_elem_of_In; simpl; tauto | reflexivity
        | apply list_elem_of_In; simpl; tauto].
    + apply (Hunk unknown);
        [apply list_elem_of_In; simpl; tauto | reflexivity | discriminate
        | discriminate | reflexivity].
  - exfalso. destruct Hnull as [Hnull _]. specialize (Hnull eq_refl).
    apply Forall_cons in Hnull as [Hm _]. by apply Hm.
Defined.
